(** * serverless-log-forwarding: the plugin of [index.js], embedded and verified

    The plugin ([class LogForwardingPlugin]) reads the forwarding block of the
    service description, derives one [AWS::Lambda::Permission] and one
    [AWS::Logs::SubscriptionFilter] per function, and merges them into the
    CloudFormation resources of the service.

    JavaScript objects used as maps are [gmap string _]; the function
    catalog, whose iteration order the code follows, is an association
    list; exceptions and the mutation of the [serverless] object are an
    explicit state-and-exception monad. *)

From stdpp Require Import base option list strings gmap fin_maps.
From Stdlib Require Import ZArith.

Local Open Scope string_scope.

(** ** JavaScript values that occur in the configuration *)

Inductive JsVal : Type :=
  | undefined
  | null
  | str (s : string).

#[global] Instance JsVal_eq_dec : EqDecision JsVal.
Proof. solve_decision. Defined.

(** [ToBoolean]: [undefined], [null] and the empty string are falsy. *)
Definition truthy (v : JsVal) : bool :=
  match v with
  | undefined | null => false
  | str s => negb (String.eqb s "")
  end.

(** [v == null] holds for [undefined] and [null] only. *)
Definition eq_null (v : JsVal) : bool :=
  match v with
  | undefined | null => true
  | str _ => false
  end.

(** [a || b] *)
Definition js_or (a b : JsVal) : JsVal := if truthy a then a else b.

(** The string a value converts to. *)
Definition to_string (v : JsVal) : string :=
  match v with
  | undefined => "undefined"
  | null => "null"
  | str s => s
  end.

(** [name !== v] for a string [name] *)
Definition strict_ne (name : string) (v : JsVal) : bool :=
  match v with
  | str s => negb (String.eqb name s)
  | _ => true
  end.

(** ** Exceptions and completions *)

(** [TypeError property]: [property] was read of [undefined].
    [Error message]: [new Error(message)]. *)
Inductive Exception : Type :=
  | TypeError (property : string)
  | Error (message : string).

Inductive Completion (A : Type) : Type :=
  | Return (a : A)
  | Throw (e : Exception).
Arguments Return {A} a.
Arguments Throw {A} e.

#[global] Instance Completion_ret : MRet Completion := @Return.
#[global] Instance Completion_bind : MBind Completion :=
  fun A B f c => match c with Return a => f a | Throw e => Throw e end.

(** The object behind [o], for reading its property [p]: a [TypeError]
    when [o] is [undefined]. *)
Definition object {A : Type} (o : option A) (p : string) : Completion A :=
  match o with
  | Some a => Return a
  | None => Throw (TypeError p)
  end.

(** ** The data of the host *)

(** A CloudFormation resource declaration. *)
Record Resource : Type := {
  Type_ : string;
  Properties : gmap string JsVal;
  DependsOn : option (list string);
}.

#[global] Instance Resource_eq_dec : EqDecision Resource.
Proof. solve_decision. Defined.

(** [custom.logForwarding]; [stages] is an array when present. *)
Record LogForwarding : Type := {
  destinationARN : JsVal;
  destinationFn : JsVal;
  filterPattern : JsVal;
  stages : option (list string);
}.

Record Custom : Type := { logForwarding : option LogForwarding }.

Record FunctionObject : Type := { name : string }.

(** [provider.naming] of the AWS provider. *)
Record Naming : Type := {
  getLambdaLogicalId : string -> string;
  getLogGroupName : string -> string;
  getNormalizedFunctionName : string -> string;
  getLogGroupLogicalId : string -> string;
}.

Record Provider : Type := { naming : Naming }.

Module ServiceProvider.
Record t : Type := { stage : string; region : string }.
End ServiceProvider.

Module ServiceFile.
(** [serverless.service.service] *)
Record t : Type := { custom : option Custom }.
End ServiceFile.

Module Template.
(** [serverless.service.resources]: the [Resources] namespace and the
    other sections of the template. *)
Record t : Type := {
  Resources : option (gmap string Resource);
  sections : gmap string JsVal;
}.
End Template.

Module Service.
Record t : Type := {
  service : ServiceFile.t;
  provider : ServiceProvider.t;
  functions : list (string * FunctionObject);
  getFunction : string -> Completion FunctionObject;
  resources : option Template.t;
}.
End Service.

Module Serverless.
(** [cli] is the list of the messages logged so far, oldest first. *)
Record t : Type := { service : Service.t; cli : list string }.
End Serverless.

Module Options.
Record t : Type := { stage : JsVal }.
End Options.

(** [this] without [this.serverless], which is the state. *)
Record Plugin : Type := { options : Options.t; provider : Provider }.

(** ** underscore *)

Module Underscore.
(** [_.keys(obj)]: the own keys, in the object's order. *)
Definition keys {A : Type} (obj : list (string * A)) : list string :=
  map fst obj.

(** [_.extend(obj, src)]: every property of [src] is written to [obj]. *)
Definition extend {A : Type} (obj src : gmap string A) : gmap string A :=
  src ∪ obj.
End Underscore.

(** ** The plugin *)

Definition not_configured : string :=
  "Serverless-log-forwarding is not configured correctly. Please see README for proper setup.".

(** [get conf()] *)
Definition conf (serverless : Serverless.t) : Completion (option LogForwarding) :=
  custom ← object (ServiceFile.custom (Service.service (Serverless.service serverless)))
                  "logForwarding";
  Return (logForwarding custom).

Definition makeSubscriptionFilter (this : Plugin) (serverless : Serverless.t)
    (arn : JsVal) (functionName : string) (filterPattern : JsVal)
  : Completion (gmap string Resource) :=
  functionObject ← Service.getFunction (Serverless.service serverless) functionName;
  let logGroupName :=
    getLogGroupName (naming (provider this)) (name functionObject) in
  let filterLogicalId :=
    "SubscriptionFilter" +:+
    getNormalizedFunctionName (naming (provider this)) functionName in
  let functionLogGroupId :=
    getLogGroupLogicalId (naming (provider this)) functionName in
  Return {[ filterLogicalId := {|
    Type_ := "AWS::Logs::SubscriptionFilter";
    Properties := {[ "DestinationArn" := arn;
                     "FilterPattern" := filterPattern;
                     "LogGroupName" := str logGroupName ]};
    DependsOn := Some ["LogForwardingLambdaPermission"; functionLogGroupId];
  |} ]}.

(** The [for] loop of [createResourcesObj], from index [i] on. *)
Fixpoint subscribe (this : Plugin) (serverless : Serverless.t)
    (arn filterPattern : JsVal) (functions : list string)
    (resourceObj : gmap string Resource) : Completion (gmap string Resource) :=
  match functions with
  | [] => Return resourceObj
  | functions_i :: rest =>
      subscriptionFilter ←
        makeSubscriptionFilter this serverless arn functions_i filterPattern;
      subscribe this serverless arn filterPattern rest
        (Underscore.extend resourceObj subscriptionFilter)
  end.

(** Lines 67-71: the names the loop runs over. *)
Definition targets (service : Service.t) (destinationFnName : JsVal) : list string :=
  let functions := Underscore.keys (Service.functions service) in
  if truthy destinationFnName
  then List.filter (fun name => strict_ne name destinationFnName) functions
  else functions.

(** [resource.DependsOn = dependsOn] *)
Definition set_DependsOn (dependsOn : list string) (resource : Resource) : Resource :=
  {| Type_ := Type_ resource;
     Properties := Properties resource;
     DependsOn := Some dependsOn |}.

Definition createResourcesObj (this : Plugin) (serverless : Serverless.t)
  : Completion (gmap string Resource) :=
  let service := Serverless.service serverless in
  conf ← conf serverless;
  (* [conf.destinationARN] is the first property read of [conf] *)
  conf ← object conf "destinationARN";
  if eq_null (destinationARN conf) && eq_null (destinationFn conf)
  then Throw (Error not_configured)
  else
    let filterPattern := js_or (filterPattern conf) (str "") in
    let arn := destinationARN conf in
    let destinationFnName := destinationFn conf in
    let functions := targets service destinationFnName in
    let principal :=
      "logs." +:+ ServiceProvider.region (Service.provider service) +:+
      ".amazonaws.com" in
    let resourceObj : gmap string Resource :=
      {[ "LogForwardingLambdaPermission" := {|
        Type_ := "AWS::Lambda::Permission";
        Properties := {[ "FunctionName" := js_or arn destinationFnName;
                         "Action" := str "lambda:InvokeFunction";
                         "Principal" := str principal ]};
        DependsOn := None;
      |} ]} in
    let resourceObj :=
      if truthy destinationFnName
      then alter
             (set_DependsOn
                [getLambdaLogicalId (naming (provider this))
                   (to_string destinationFnName)])
             "LogForwardingLambdaPermission" resourceObj
      else resourceObj in
    subscribe this serverless arn filterPattern functions resourceObj.

(** ** The state of the host and [updateResources] *)

Definition M (A : Type) : Type := Serverless.t -> Completion A * Serverless.t.

#[global] Instance M_ret : MRet M := fun A a serverless => (Return a, serverless).
#[global] Instance M_bind : MBind M := fun A B f m serverless =>
  match m serverless with
  | (Return a, serverless') => f a serverless'
  | (Throw e, serverless') => (Throw e, serverless')
  end.

(** A computation that only reads [this.serverless]. *)
Definition reading {A : Type} (f : Serverless.t -> Completion A) : M A :=
  fun serverless => (f serverless, serverless).

(** The host after [cli.log(message)]. *)
Definition logged (message : string) (serverless : Serverless.t) : Serverless.t :=
  {| Serverless.service := Serverless.service serverless;
     Serverless.cli := Serverless.cli serverless ++ [message] |}.

(** [this.serverless.cli.log(message)] *)
Definition log (message : string) : M unit := fun serverless =>
  (Return tt, logged message serverless).

(** [this.serverless.service.resources = resources] *)
Definition set_resources (resources : Template.t) : M unit := fun serverless =>
  let service := Serverless.service serverless in
  (Return tt,
   {| Serverless.service :=
        {| Service.service := Service.service service;
           Service.provider := Service.provider service;
           Service.functions := Service.functions service;
           Service.getFunction := Service.getFunction service;
           Service.resources := Some resources |};
      Serverless.cli := Serverless.cli serverless |}).

(** [array.indexOf(x)], [-1] when [x] is not an element. *)
Fixpoint indexOf_from (array : list string) (x : string) (i : Z) : Z :=
  match array with
  | [] => (-1)%Z
  | y :: rest => if String.eqb y x then i else indexOf_from rest x (i + 1)%Z
  end.

Definition indexOf (array : list string) (x : string) : Z := indexOf_from array x 0.

(** Lines 28-30: the stage of this deployment. *)
Definition current_stage (this : Plugin) (service : Service.t) : string :=
  match Options.stage (options this) with
  | str s =>
      if truthy (str s) && (0 <? String.length s)%nat
      then s
      else ServiceProvider.stage (Service.provider service)
  | _ => ServiceProvider.stage (Service.provider service)
  end.

(** Lines 39-45: the template with its [Resources] namespace in place. *)
Definition with_Resources (resources : option Template.t) : Template.t :=
  match resources with
  | None => {| Template.Resources := Some ∅; Template.sections := ∅ |}
  | Some resources =>
      match Template.Resources resources with
      | None => {| Template.Resources := Some ∅;
                   Template.sections := Template.sections resources |}
      | Some _ => resources
      end
  end.

(** Line 46: [_.extend(resources.Resources, resourceObj)], in place. *)
Definition extend_Resources (resourceObj : gmap string Resource)
    (resources : Template.t) : Template.t :=
  match Template.Resources resources with
  | Some Resources =>
      {| Template.Resources := Some (Underscore.extend Resources resourceObj);
         Template.sections := Template.sections resources |}
  | None => resources
  end.

(** Lines 31-32: [conf.stages && conf.stages.indexOf(stage) === -1] *)
Definition ignored (conf : LogForwarding) (stage : string) : bool :=
  match stages conf with
  | Some stages => (indexOf stages stage =? -1)%Z
  | None => false
  end.

Definition updateResources (this : Plugin) : M unit :=
  service ← reading (fun serverless => Return (Serverless.service serverless));
  conf ← reading conf;
  let stage := current_stage this service in
  (* [conf.stages] is the first property read of [conf] *)
  conf ← reading (fun _ => object conf "stages");
  if ignored conf stage
  then log ("Log Forwarding is ignored for " +:+ stage +:+ " stage")
  else
    log "Updating Log Forwarding Resources...";;
    resourceObj ← reading (createResourcesObj this);
    resources ← reading (fun serverless =>
      Return (Service.resources (Serverless.service serverless)));
    set_resources (extend_Resources resourceObj (with_Resources resources));;
    log "Log Forwarding Resources Updated".

(** * Properties *)

(** ** Names used in the statements *)

(** The logical key of the single permission. *)
Definition permissionKey : string := "LogForwardingLambdaPermission".

(** The logical key [makeSubscriptionFilter] computes for a function. *)
Definition filterLogicalId (this : Plugin) (functionName : string) : string :=
  "SubscriptionFilter" +:+
  getNormalizedFunctionName (naming (provider this)) functionName.

(** The service carries the forwarding block [c]. *)
Definition forwarding (serverless : Serverless.t) (c : LogForwarding) : Prop :=
  conf serverless = Return (Some c).

(** The configuration passes the check of lines 59-61. *)
Definition valid (c : LogForwarding) : Prop :=
  eq_null (destinationARN c) && eq_null (destinationFn c) = false.

(** [getFunction] of the host answers for every function of the catalog. *)
Definition resolves (service : Service.t) : Prop :=
  forallb (fun functionName =>
             match Service.getFunction service functionName with
             | Return _ => true
             | Throw _ => false
             end)
          (Underscore.keys (Service.functions service)) = true.

(** [f] maps different names of [names] to different strings. *)
Definition injective_on (f : string -> string) (names : list string) : Prop :=
  forall a b, a ∈ names -> b ∈ names -> f a = f b -> a = b.

(** The entries of a resources object of a given [Type]. *)
Definition entries_of_type (type : string) (resourceObj : gmap string Resource)
  : list (string * Resource) :=
  filter (fun entry => Type_ entry.2 = type) (map_to_list resourceObj).

Definition permissions := entries_of_type "AWS::Lambda::Permission".
Definition subscriptionFilters := entries_of_type "AWS::Logs::SubscriptionFilter".

(** The declaration of lines 115-126, for a function and its object. *)
Definition subscriptionFilter (this : Plugin) (arn filterPattern : JsVal)
    (functionName : string) (functionObject : FunctionObject) : Resource :=
  {| Type_ := "AWS::Logs::SubscriptionFilter";
     Properties :=
       {[ "DestinationArn" := arn;
          "FilterPattern" := filterPattern;
          "LogGroupName" :=
            str (getLogGroupName (naming (provider this)) (name functionObject)) ]};
     DependsOn :=
       Some [permissionKey;
             getLogGroupLogicalId (naming (provider this)) functionName] |}.

(** The declaration of lines 77-91. *)
Definition permission (this : Plugin) (service : Service.t) (c : LogForwarding)
  : Resource :=
  {| Type_ := "AWS::Lambda::Permission";
     Properties :=
       {[ "FunctionName" := js_or (destinationARN c) (destinationFn c);
          "Action" := str "lambda:InvokeFunction";
          "Principal" :=
            str ("logs." +:+ ServiceProvider.region (Service.provider service) +:+
                 ".amazonaws.com") ]};
     DependsOn :=
       if truthy (destinationFn c)
       then Some [getLambdaLogicalId (naming (provider this))
                    (to_string (destinationFn c))]
       else None |}.

(** The filter pattern of line 62. *)
Definition pattern (c : LogForwarding) : JsVal := js_or (filterPattern c) (str "").

(** The resources object holds the subscription filter of a function: its
    declaration, under its logical key. *)
Definition subscribed (this : Plugin) (serverless : Serverless.t)
    (c : LogForwarding) (resourceObj : gmap string Resource)
    (functionName : string) : Prop :=
  exists functionObject,
    Service.getFunction (Serverless.service serverless) functionName =
      Return functionObject /\
    resourceObj !! filterLogicalId this functionName =
      Some (subscriptionFilter this (destinationARN c) (pattern c)
              functionName functionObject).


(** ** A small service to run the plugin on *)

Module Scenario.
(** A stub of the naming collaborator. *)
Definition stub : Naming :=
  {| getLambdaLogicalId := fun functionName => functionName +:+ "LambdaFunction";
     getLogGroupName := fun functionName => "/aws/lambda/" +:+ functionName;
     getNormalizedFunctionName := fun functionName => functionName;
     getLogGroupLogicalId := fun functionName => functionName +:+ "LogGroup" |}.

Definition plugin (stage : JsVal) : Plugin :=
  {| options := {| Options.stage := stage |};
     provider := {| naming := stub |} |}.

(** [getFunction] of a host over a catalog. *)
Definition lookup (functions : list (string * FunctionObject))
    (functionName : string) : Completion FunctionObject :=
  match List.find (fun entry => String.eqb entry.1 functionName) functions with
  | Some entry => Return entry.2
  | None => Throw (Error ("Function " +:+ functionName +:+ " doesn't exist in this Service"))
  end.

Definition host (custom : option Custom)
    (functions : list (string * FunctionObject))
    (resources : option Template.t) : Serverless.t :=
  {| Serverless.service :=
       {| Service.service := {| ServiceFile.custom := custom |};
          Service.provider := {| ServiceProvider.stage := "dev";
                                 ServiceProvider.region := "us-east-1" |};
          Service.functions := functions;
          Service.getFunction := lookup functions;
          Service.resources := resources |};
     Serverless.cli := [] |}.

Definition block (c : LogForwarding) : option Custom :=
  Some {| logForwarding := Some c |}.

Definition fnA : string * FunctionObject := ("fnA", {| name := "svc-dev-fnA" |}).
Definition fnB : string * FunctionObject := ("fnB", {| name := "svc-dev-fnB" |}).
Definition fnDest : string * FunctionObject :=
  ("fnDest", {| name := "svc-dev-fnDest" |}).
Definition unnamed : string * FunctionObject := ("", {| name := "svc-dev-" |}).

(** An external destination. *)
Definition external : LogForwarding :=
  {| destinationARN := str "arn:aws:lambda:us-east-1:123:function:dest";
     destinationFn := undefined;
     filterPattern := undefined;
     stages := None |}.

(** A function of the service as destination. *)
Definition internal : LogForwarding :=
  {| destinationARN := undefined;
     destinationFn := str "fnDest";
     filterPattern := undefined;
     stages := None |}.

(** No destination at all. *)
Definition missing : LogForwarding :=
  {| destinationARN := undefined;
     destinationFn := null;
     filterPattern := undefined;
     stages := None |}.

(** Forwarding for the [prod] stage only. *)
Definition prod_only : LogForwarding :=
  {| destinationARN := undefined;
     destinationFn := null;
     filterPattern := undefined;
     stages := Some ["prod"] |}.

(** The empty string as destination function. *)
Definition empty_fn : LogForwarding :=
  {| destinationARN := undefined;
     destinationFn := str "";
     filterPattern := undefined;
     stages := None |}.

(** The empty string as ARN, next to a destination function. *)
Definition empty_arn : LogForwarding :=
  {| destinationARN := str "";
     destinationFn := str "fnDest";
     filterPattern := undefined;
     stages := None |}.

(** A template that already holds a resource under the permission's key
    and one under another key. *)
Definition bucket : Resource :=
  {| Type_ := "AWS::S3::Bucket"; Properties := ∅; DependsOn := None |}.

Definition template : Template.t :=
  {| Template.Resources :=
       Some {[ "LogForwardingLambdaPermission" := bucket; "Uploads" := bucket ]};
     Template.sections := {[ "Description" := str "svc" ]} |}.

(** Scenario A: two functions, an external destination. *)
Definition A : Serverless.t := host (block external) [fnA; fnB] None.

(** Scenario B: the destination is a function of the service. *)
Definition B : Serverless.t := host (block internal) [fnA; fnDest] None.

(** The empty string as destination function and as a function's key. *)
Definition empty_fn_host : Serverless.t := host (block empty_fn) [unnamed; fnA] None.

(** The empty string as ARN. *)
Definition empty_arn_host : Serverless.t := host (block empty_arn) [fnA; fnDest] None.

(** Scenario D: a service at stage [dev], forwarding for [prod] only. *)
Definition D : Serverless.t := host (block prod_only) [fnA; fnB] (Some template).

(** No destination, on a service with a template. *)
Definition no_destination : Serverless.t :=
  host (block missing) [fnA; fnB] (Some template).

(** An external destination, on a service with a template. *)
Definition with_template : Serverless.t :=
  host (block external) [fnA] (Some template).

(** No [custom] object, and a [custom] object without [logForwarding]. *)
Definition no_custom : Serverless.t := host None [fnA] (Some template).
Definition no_block : Serverless.t :=
  host (Some {| logForwarding := None |}) [fnA] (Some template).

(** A naming whose normalization maps every name to the same string. *)
Definition flat : Naming :=
  {| getLambdaLogicalId := fun functionName => functionName +:+ "LambdaFunction";
     getLogGroupName := fun functionName => "/aws/lambda/" +:+ functionName;
     getNormalizedFunctionName := fun _ => "Fn";
     getLogGroupLogicalId := fun functionName => functionName +:+ "LogGroup" |}.

Definition flat_plugin : Plugin :=
  {| options := {| Options.stage := undefined |};
     provider := {| naming := flat |} |}.

(** A host whose [getFunction] does not know [fnB] of its catalog. *)
Definition stale : Serverless.t :=
  {| Serverless.service :=
       {| Service.service := {| ServiceFile.custom := block external |};
          Service.provider := {| ServiceProvider.stage := "dev";
                                 ServiceProvider.region := "us-east-1" |};
          Service.functions := [fnA; fnB; fnDest];
          Service.getFunction := lookup [fnA; fnDest];
          Service.resources := Some template |};
     Serverless.cli := [] |}.

(** Scenario C: no function at all. *)
Definition C : Serverless.t := host (block external) [] None.
End Scenario.

(** ** JavaScript values *)

Lemma truthy_str v : truthy v = true -> exists s, v = str s /\ s <> "".
Proof.
  destruct v as [| |s]; simpl; try discriminate.
  intros H. exists s. split; [reflexivity|].
  intros ->. discriminate.
Qed.

Lemma truthy_not_null v : truthy v = true -> eq_null v = false.
Proof. destruct v; simpl; congruence. Qed.

Lemma strict_ne_str name s : strict_ne name (str s) = true <-> name <> s.
Proof.
  simpl. rewrite negb_true_iff. split.
  - intros H ->. rewrite String.eqb_refl in H. discriminate.
  - intros H. apply String.eqb_neq. exact H.
Qed.

Lemma js_or_default_str v : exists s, js_or v (str "") = str s.
Proof.
  unfold js_or. destruct (truthy v) eqn:E; [|eauto].
  apply truthy_str in E as (s & -> & _). eauto.
Qed.

(** ** Logical keys *)

Lemma filterLogicalId_not_permissionKey this functionName :
  filterLogicalId this functionName <> permissionKey.
Proof. unfold filterLogicalId, permissionKey. simpl. discriminate. Qed.

Lemma filterLogicalId_inj this names a b :
  injective_on (getNormalizedFunctionName (naming (provider this))) names ->
  a ∈ names -> b ∈ names ->
  filterLogicalId this a = filterLogicalId this b -> a = b.
Proof.
  intros Hinj Ha Hb H. apply Hinj; [done..|].
  unfold filterLogicalId in H. by simplify_eq/=.
Qed.

(** ** [makeSubscriptionFilter] *)

Section makeSubscriptionFilter.
Variables (this : Plugin) (serverless : Serverless.t).
Variables (arn filterPattern : JsVal).

Lemma makeSubscriptionFilter_Return functionName functionObject :
  Service.getFunction (Serverless.service serverless) functionName =
    Return functionObject ->
  makeSubscriptionFilter this serverless arn functionName filterPattern =
  Return {[ filterLogicalId this functionName :=
              subscriptionFilter this arn filterPattern functionName functionObject ]}.
Proof.
  unfold makeSubscriptionFilter. intros ->. reflexivity.
Qed.

Lemma makeSubscriptionFilter_inv functionName filter :
  makeSubscriptionFilter this serverless arn functionName filterPattern =
    Return filter ->
  exists functionObject,
    Service.getFunction (Serverless.service serverless) functionName =
      Return functionObject /\
    filter = {[ filterLogicalId this functionName :=
                  subscriptionFilter this arn filterPattern functionName functionObject ]}.
Proof.
  unfold makeSubscriptionFilter.
  destruct (Service.getFunction _ functionName) as [fo|e]; simpl; [|discriminate].
  intros [= <-]. exists fo. split; reflexivity.
Qed.
End makeSubscriptionFilter.

(** ** The loop *)

Section subscribe.
Variables (this : Plugin) (serverless : Serverless.t).
Variables (arn filterPattern : JsVal).

Abbreviation getFunction := (Service.getFunction (Serverless.service serverless)).
Abbreviation loop := (subscribe this serverless arn filterPattern).
Abbreviation declaration := (subscriptionFilter this arn filterPattern).

(** One turn of the loop writes one key. *)
Lemma extend_filter (resourceObj : gmap string Resource) functionName functionObject :
  Underscore.extend resourceObj
    {[ filterLogicalId this functionName := declaration functionName functionObject ]} =
  <[ filterLogicalId this functionName := declaration functionName functionObject ]>
    resourceObj.
Proof. unfold Underscore.extend. by rewrite insert_union_singleton_l. Qed.

Lemma subscribe_cons functionName functionObject rest resourceObj :
  getFunction functionName = Return functionObject ->
  loop (functionName :: rest) resourceObj =
  loop rest (<[ filterLogicalId this functionName :=
                  declaration functionName functionObject ]> resourceObj).
Proof.
  intros H. simpl.
  rewrite (makeSubscriptionFilter_Return _ _ _ _ _ _ H). simpl.
  by rewrite extend_filter.
Qed.

Lemma subscribe_cons_inv functionName rest resourceObj out :
  loop (functionName :: rest) resourceObj = Return out ->
  exists functionObject,
    getFunction functionName = Return functionObject /\
    loop rest (<[ filterLogicalId this functionName :=
                    declaration functionName functionObject ]> resourceObj) =
      Return out.
Proof.
  intros H. destruct (getFunction functionName) as [fo|e] eqn:E.
  - exists fo. split; [done|]. by rewrite <- (subscribe_cons _ _ _ _ E).
  - simpl in H. unfold makeSubscriptionFilter in H. rewrite E in H. discriminate.
Qed.

(** The loop runs to its end when the host knows every function. *)
Lemma subscribe_Return functions resourceObj :
  Forall (fun f => exists fo, getFunction f = Return fo) functions ->
  exists out, loop functions resourceObj = Return out.
Proof.
  intros H. revert resourceObj.
  induction H as [|f rest [fo Hfo] _ IH]; intros resourceObj.
  - by exists resourceObj.
  - rewrite (subscribe_cons _ _ _ _ Hfo). apply IH.
Qed.

(** A key no function maps to is not touched. *)
Lemma subscribe_frame functions resourceObj out key :
  loop functions resourceObj = Return out ->
  (forall f, f ∈ functions -> filterLogicalId this f <> key) ->
  out !! key = resourceObj !! key.
Proof.
  revert resourceObj.
  induction functions as [|f rest IH]; intros resourceObj Hout Hkey.
  - by simplify_eq/=.
  - apply subscribe_cons_inv in Hout as (fo & Hfo & Hout).
    rewrite (IH _ Hout); [|intros g Hg; apply Hkey; by right].
    rewrite lookup_insert_ne; [done|]. apply Hkey. by left.
Qed.

(** Every entry is an old one or the declaration of some function. *)
Lemma subscribe_entries functions resourceObj out key resource :
  loop functions resourceObj = Return out ->
  out !! key = Some resource ->
  resourceObj !! key = Some resource \/
  exists f fo, f ∈ functions /\ getFunction f = Return fo /\
               key = filterLogicalId this f /\ resource = declaration f fo.
Proof.
  revert resourceObj.
  induction functions as [|f rest IH]; intros resourceObj Hout Hkey.
  - left. by simplify_eq/=.
  - apply subscribe_cons_inv in Hout as (fo & Hfo & Hout).
    destruct (IH _ Hout Hkey) as [Hold|(g & go & Hg & Hgo & -> & ->)].
    + destruct (decide (filterLogicalId this f = key)) as [<-|Hne].
      * rewrite lookup_insert_eq in Hold. simplify_eq.
        right. exists f, fo. split_and!; try done. by left.
      * rewrite lookup_insert_ne in Hold by done. by left.
    + right. exists g, go. split_and!; try done. by right.
Qed.

(** With distinct keys, the entries are the old ones and one per function. *)
Lemma subscribe_Permutation functions resourceObj out :
  NoDup (filterLogicalId this <$> functions) ->
  (forall f, f ∈ functions -> resourceObj !! filterLogicalId this f = None) ->
  loop functions resourceObj = Return out ->
  exists declarations,
    Forall2 (fun f entry => exists fo,
               getFunction f = Return fo /\
               entry = (filterLogicalId this f, declaration f fo))
            functions declarations /\
    map_to_list out ≡ₚ declarations ++ map_to_list resourceObj.
Proof.
  revert resourceObj.
  induction functions as [|f rest IH]; intros resourceObj Hnd Hfresh Hout.
  - exists []. split; [constructor|]. by simplify_eq/=.
  - apply subscribe_cons_inv in Hout as (fo & Hfo & Hout).
    rewrite fmap_cons in Hnd. apply NoDup_cons in Hnd as [Hf Hnd].
    edestruct IH as (ds & Hds & Hperm); [exact Hnd| |exact Hout|].
    { intros g Hg. rewrite lookup_insert_ne.
      - apply Hfresh. by right.
      - intros Heq. apply Hf. rewrite Heq. by apply list_elem_of_fmap_2. }
    exists ((filterLogicalId this f, declaration f fo) :: ds). split.
    + constructor; [|done]. by exists fo.
    + rewrite Hperm, map_to_list_insert by (apply Hfresh; by left).
      by rewrite <- Permutation_middle.
Qed.
End subscribe.

(** ** The names the loop runs over *)

Lemma targets_truthy service d :
  truthy (str d) = true ->
  targets service (str d) =
  List.filter (fun name => negb (String.eqb name d))
              (Underscore.keys (Service.functions service)).
Proof. unfold targets. intros ->. reflexivity. Qed.

Lemma targets_falsy service v :
  truthy v = false ->
  targets service v = Underscore.keys (Service.functions service).
Proof. unfold targets. intros ->. reflexivity. Qed.

Lemma elem_of_targets service v f :
  f ∈ targets service v <->
  f ∈ Underscore.keys (Service.functions service) /\
  (truthy v = true -> v <> str f).
Proof.
  unfold targets. destruct (truthy v) eqn:E.
  - apply truthy_str in E as (d & -> & _).
    rewrite list_elem_of_In, filter_In, <- list_elem_of_In, strict_ne_str.
    split; intros [? H]; (split; [done|]).
    + intros _ [= ->]. by apply H.
    + intros ->. by apply H.
  - split; [intros ?; split; [done|discriminate]|by intros [? _]].
Qed.

Lemma targets_keys service v f :
  f ∈ targets service v -> f ∈ Underscore.keys (Service.functions service).
Proof. intros H. by apply elem_of_targets in H as [? _]. Qed.

Lemma NoDup_targets service v :
  NoDup (Underscore.keys (Service.functions service)) ->
  NoDup (targets service v).
Proof.
  unfold targets. intros H. destruct (truthy v); [|done].
  apply NoDup_ListNoDup, List.NoDup_filter, NoDup_ListNoDup, H.
Qed.

Lemma resolves_targets service v :
  resolves service ->
  Forall (fun f => exists fo, Service.getFunction service f = Return fo)
         (targets service v).
Proof.
  unfold resolves. rewrite forallb_forall. intros H.
  apply Forall_forall. intros f Hf%targets_keys%list_elem_of_In.
  specialize (H f Hf). destruct (Service.getFunction service f); [eauto|done].
Qed.

(** ** [createResourcesObj] *)

Section createResourcesObj.
Variables (this : Plugin) (serverless : Serverless.t) (c : LogForwarding).
Hypothesis Hconf : forwarding serverless c.

Abbreviation service := (Serverless.service serverless).

(** The object of lines 76-91, before the loop. *)
Lemma createResourcesObj_loop :
  valid c ->
  createResourcesObj this serverless =
  subscribe this serverless (destinationARN c) (pattern c)
    (targets service (destinationFn c))
    {[ permissionKey := permission this service c ]}.
Proof.
  unfold valid, createResourcesObj. intros Hvalid.
  rewrite Hconf. simpl. rewrite Hvalid.
  f_equal. unfold permission.
  destruct (truthy (destinationFn c)); [|reflexivity].
  by rewrite alter_singleton_eq.
Qed.

Lemma createResourcesObj_invalid :
  ~ valid c ->
  createResourcesObj this serverless = Throw (Error not_configured).
Proof.
  unfold valid, createResourcesObj. intros Hinvalid.
  rewrite Hconf. simpl.
  by destruct (eq_null (destinationARN c) && eq_null (destinationFn c)).
Qed.

Lemma createResourcesObj_Return :
  valid c -> resolves service ->
  exists resourceObj, createResourcesObj this serverless = Return resourceObj.
Proof.
  intros Hvalid Hres. rewrite (createResourcesObj_loop Hvalid).
  apply subscribe_Return, resolves_targets, Hres.
Qed.

(** The permission stays where line 77 puts it. *)
Lemma createResourcesObj_permission resourceObj :
  valid c ->
  createResourcesObj this serverless = Return resourceObj ->
  resourceObj !! permissionKey = Some (permission this service c).
Proof.
  intros Hvalid. rewrite (createResourcesObj_loop Hvalid). intros Hout.
  rewrite (subscribe_frame _ _ _ _ _ _ _ _ Hout).
  - apply lookup_singleton_eq.
  - intros f _. apply filterLogicalId_not_permissionKey.
Qed.

(** Every other entry is the declaration of a function of the loop. *)
Lemma createResourcesObj_entries resourceObj key resource :
  valid c ->
  createResourcesObj this serverless = Return resourceObj ->
  resourceObj !! key = Some resource ->
  (key = permissionKey /\ resource = permission this service c) \/
  exists f fo,
    f ∈ targets service (destinationFn c) /\
    Service.getFunction service f = Return fo /\
    key = filterLogicalId this f /\
    resource = subscriptionFilter this (destinationARN c) (pattern c) f fo.
Proof.
  intros Hvalid. rewrite (createResourcesObj_loop Hvalid). intros Hout Hkey.
  destruct (subscribe_entries _ _ _ _ _ _ _ _ _ Hout Hkey) as [Hold|H]; [|by right].
  left. apply lookup_singleton_Some in Hold as [<- <-]. done.
Qed.
End createResourcesObj.

(** ** Lists and entries *)

Lemma NoDup_only {A : Type} (l : list A) (x : A) :
  NoDup l -> (forall y, y ∈ l <-> y = x) -> l = [x].
Proof.
  intros Hnd H. destruct l as [|y l].
  - exfalso. eapply not_elem_of_nil. apply H. reflexivity.
  - assert (y = x) as -> by (apply H; by left).
    apply NoDup_cons in Hnd as [Hx _].
    destruct l as [|z l]; [done|].
    exfalso. apply Hx.
    assert (z = x) as -> by (apply H; right; by left). by left.
Qed.

Lemma elem_of_entries_of_type type (resourceObj : gmap string Resource) key resource :
  (key, resource) ∈ entries_of_type type resourceObj <->
  resourceObj !! key = Some resource /\ Type_ resource = type.
Proof.
  unfold entries_of_type.
  rewrite list_elem_of_filter, elem_of_map_to_list. simpl. tauto.
Qed.


(** ** The claims about the generated resources *)

(** C3. For every valid configuration and every catalog, whatever its size,
    the resources object holds exactly one declaration of type
    [AWS::Lambda::Permission], under the key [LogForwardingLambdaPermission];
    the keys of the subscription filters start with [SubscriptionFilter]
    and none of them is that key. *)
Theorem one_permission this serverless c :
  forwarding serverless c ->
  valid c ->
  resolves (Serverless.service serverless) ->
  exists resourceObj,
    createResourcesObj this serverless = Return resourceObj /\
    permissions resourceObj =
      [("LogForwardingLambdaPermission",
        permission this (Serverless.service serverless) c)] /\
    forall key resource,
      (key, resource) ∈ subscriptionFilters resourceObj ->
      key <> "LogForwardingLambdaPermission" /\
      exists functionName,
        key = "SubscriptionFilter" +:+
              getNormalizedFunctionName (naming (provider this)) functionName.
Proof.
  intros Hconf Hvalid Hres.
  destruct (createResourcesObj_Return this _ _ Hconf Hvalid Hres) as [out Hout].
  exists out. split; [done|]. split.
  - apply NoDup_only.
    + apply NoDup_filter, NoDup_map_to_list.
    + intros [key resource]. unfold permissions.
      rewrite elem_of_entries_of_type. split.
      * intros [Hkey Htype].
        destruct (createResourcesObj_entries _ _ _ Hconf _ _ _ Hvalid Hout Hkey)
          as [[-> ->]|(f & fo & _ & _ & _ & ->)]; [done|discriminate].
      * intros [= -> ->]. split; [|reflexivity].
        apply (createResourcesObj_permission _ _ _ Hconf _ Hvalid Hout).
  - intros key resource [Hkey Htype]%elem_of_entries_of_type.
    destruct (createResourcesObj_entries _ _ _ Hconf _ _ _ Hvalid Hout Hkey)
      as [[-> ->]|(f & fo & _ & _ & -> & ->)]; [discriminate|].
    split; [apply filterLogicalId_not_permissionKey|by exists f].
Qed.

Lemma one_permission_witness :
  forwarding Scenario.B Scenario.internal /\
  valid Scenario.internal /\
  resolves (Serverless.service Scenario.B) /\
  exists resourceObj,
    createResourcesObj (Scenario.plugin undefined) Scenario.B = Return resourceObj /\
    permissions resourceObj =
      [("LogForwardingLambdaPermission",
        permission (Scenario.plugin undefined) (Serverless.service Scenario.B)
                   Scenario.internal)] /\
    forall key resource,
      (key, resource) ∈ subscriptionFilters resourceObj ->
      key <> "LogForwardingLambdaPermission" /\
      exists functionName,
        key = "SubscriptionFilter" +:+
              getNormalizedFunctionName
                (naming (provider (Scenario.plugin undefined))) functionName.
Proof.
  split_and!; [reflexivity..|].
  apply (one_permission (Scenario.plugin undefined) Scenario.B Scenario.internal);
    reflexivity.
Defined.

(** C4. Every generated subscription filter depends on exactly the
    permission [LogForwardingLambdaPermission] and the log group of its own
    function, as named by [getLogGroupLogicalId]; its logical key is
    [SubscriptionFilter] followed by the normalized name of the function.
    This holds for each call of [makeSubscriptionFilter] and for each
    subscription filter of the resources object. *)
Theorem subscription_filter_dependencies this serverless c :
  forwarding serverless c ->
  valid c ->
  resolves (Serverless.service serverless) ->
  (forall arn functionName filterPattern functionObject,
     Service.getFunction (Serverless.service serverless) functionName =
       Return functionObject ->
     exists resource,
       makeSubscriptionFilter this serverless arn functionName filterPattern =
         Return {[ "SubscriptionFilter" +:+
                   getNormalizedFunctionName (naming (provider this)) functionName
                   := resource ]} /\
       Type_ resource = "AWS::Logs::SubscriptionFilter" /\
       DependsOn resource =
         Some ["LogForwardingLambdaPermission";
               getLogGroupLogicalId (naming (provider this)) functionName]) /\
  exists resourceObj,
    createResourcesObj this serverless = Return resourceObj /\
    forall key resource,
      (key, resource) ∈ subscriptionFilters resourceObj ->
      exists functionName,
        functionName ∈ Underscore.keys (Service.functions (Serverless.service serverless)) /\
        key = "SubscriptionFilter" +:+
              getNormalizedFunctionName (naming (provider this)) functionName /\
        DependsOn resource =
          Some ["LogForwardingLambdaPermission";
                getLogGroupLogicalId (naming (provider this)) functionName].
Proof.
  intros Hconf Hvalid Hres. split.
  - intros arn f fp fo Hfo.
    exists (subscriptionFilter this arn fp f fo). split; [|done].
    apply (makeSubscriptionFilter_Return _ _ _ _ _ _ Hfo).
  - destruct (createResourcesObj_Return this _ _ Hconf Hvalid Hres) as [out Hout].
    exists out. split; [done|].
    intros key resource [Hkey Htype]%elem_of_entries_of_type.
    destruct (createResourcesObj_entries _ _ _ Hconf _ _ _ Hvalid Hout Hkey)
      as [[-> ->]|(f & fo & Hf & _ & -> & ->)]; [discriminate|].
    exists f. split; [by eapply targets_keys|done].
Qed.

Lemma subscription_filter_dependencies_witness :
  forwarding Scenario.A Scenario.external /\
  valid Scenario.external /\
  resolves (Serverless.service Scenario.A) /\
  exists resourceObj,
    createResourcesObj (Scenario.plugin undefined) Scenario.A = Return resourceObj /\
    forall key resource,
      (key, resource) ∈ subscriptionFilters resourceObj ->
      exists functionName,
        functionName ∈ ["fnA"; "fnB"] /\
        key = "SubscriptionFilter" +:+ functionName /\
        DependsOn resource =
          Some ["LogForwardingLambdaPermission"; functionName +:+ "LogGroup"].
Proof.
  split_and!; [reflexivity..|].
  apply (subscription_filter_dependencies
           (Scenario.plugin undefined) Scenario.A Scenario.external);
    reflexivity.
Defined.



(** ** One subscription filter per function *)

Section filters.
Variables (this : Plugin) (serverless : Serverless.t) (c : LogForwarding).
Hypothesis Hconf : forwarding serverless c.
Hypothesis Hvalid : valid c.

Abbreviation service := (Serverless.service serverless).
Abbreviation declaration :=
  (subscriptionFilter this (destinationARN c) (pattern c)).
Abbreviation declared := (fun f entry => exists fo,
  Service.getFunction service f = Return fo /\
  entry = (filterLogicalId this f, declaration f fo)).

Lemma declared_keys functions (declarations : list (string * Resource)) :
  Forall2 declared functions declarations ->
  declarations.*1 = filterLogicalId this <$> functions.
Proof.
  induction 1 as [|f e fs ds (fo & _ & ->) _ IH]; [done|].
  by rewrite !fmap_cons, IH.
Qed.

Lemma declared_filters functions (declarations : list (string * Resource)) :
  Forall2 declared functions declarations ->
  filter (fun entry => Type_ entry.2 = "AWS::Logs::SubscriptionFilter")
         declarations = declarations.
Proof.
  induction 1 as [|f e fs ds (fo & _ & ->) _ IH]; [done|].
  rewrite filter_cons_True by done. by rewrite IH.
Qed.

Lemma declared_elem_of functions (declarations : list (string * Resource)) f :
  Forall2 declared functions declarations ->
  f ∈ functions ->
  exists fo, Service.getFunction service f = Return fo /\
             (filterLogicalId this f, declaration f fo) ∈ declarations.
Proof.
  induction 1 as [|g e fs ds (fo & Hfo & ->) _ IH].
  - by intros ?%not_elem_of_nil.
  - intros [->|Hf]%elem_of_cons.
    + exists fo. split; [done|by left].
    + destruct (IH Hf) as (fo' & ? & ?). exists fo'. split; [done|by right].
Qed.

(** With a normalization that keeps the names of the loop apart, the
    subscription filters of the result are one per name of the loop. *)
Lemma createResourcesObj_filters resourceObj :
  NoDup (Underscore.keys (Service.functions service)) ->
  injective_on (getNormalizedFunctionName (naming (provider this)))
               (targets service (destinationFn c)) ->
  createResourcesObj this serverless = Return resourceObj ->
  (subscriptionFilters resourceObj).*1 ≡ₚ
    filterLogicalId this <$> targets service (destinationFn c) /\
  forall f, f ∈ targets service (destinationFn c) ->
    exists fo, Service.getFunction service f = Return fo /\
               resourceObj !! filterLogicalId this f = Some (declaration f fo).
Proof.
  intros Hnd Hinj. rewrite (createResourcesObj_loop _ _ _ Hconf Hvalid).
  intros Hout.
  apply subscribe_Permutation in Hout as (ds & Hds & Hperm).
  - split.
    + unfold subscriptionFilters, entries_of_type.
      rewrite Hperm, filter_app, (declared_filters _ _ Hds).
      rewrite map_to_list_singleton, app_nil_r.
      by rewrite (declared_keys _ _ Hds).
    + intros f Hf.
      destruct (declared_elem_of _ _ _ Hds Hf) as (fo & Hfo & Hin).
      exists fo. split; [done|].
      apply elem_of_map_to_list. rewrite Hperm. apply elem_of_app. by left.
  - apply NoDup_fmap_2_strong; [|by apply NoDup_targets].
    intros a b Ha Hb. by apply (filterLogicalId_inj this _ a b Hinj).
  - intros f _. apply lookup_singleton_ne.
    intros Heq. by apply (filterLogicalId_not_permissionKey this f).
Qed.
End filters.

(** C1, as the code has it. The destination function is left out of the
    loop when [destinationFn] is truthy, that is a string other than the
    empty one. Then every function of the catalog but the destination has
    its subscription filter in the resources object, the destination has
    none, and the subscription filters are one per such function. When
    [destinationFn] is [undefined], [null] or the empty string, every
    function of the catalog has its subscription filter, one each. The
    catalog has no key twice, the host resolves its functions, and the
    normalization keeps the names of the catalog and of the destination
    apart. *)
Theorem subscription_filter_per_function this serverless c :
  forwarding serverless c ->
  valid c ->
  resolves (Serverless.service serverless) ->
  NoDup (Underscore.keys (Service.functions (Serverless.service serverless))) ->
  injective_on (getNormalizedFunctionName (naming (provider this)))
    (match destinationFn c with
     | str d => d :: Underscore.keys (Service.functions (Serverless.service serverless))
     | _ => Underscore.keys (Service.functions (Serverless.service serverless))
     end) ->
  exists resourceObj,
    createResourcesObj this serverless = Return resourceObj /\
    (forall d, destinationFn c = str d -> d <> "" ->
       (forall f,
          f ∈ Underscore.keys (Service.functions (Serverless.service serverless)) ->
          f <> d -> subscribed this serverless c resourceObj f) /\
       resourceObj !! filterLogicalId this d = None /\
       (subscriptionFilters resourceObj).*1 ≡ₚ
         filterLogicalId this <$>
           List.filter (fun f => negb (String.eqb f d))
             (Underscore.keys (Service.functions (Serverless.service serverless)))) /\
    (truthy (destinationFn c) = false ->
       (forall f,
          f ∈ Underscore.keys (Service.functions (Serverless.service serverless)) ->
          subscribed this serverless c resourceObj f) /\
       (subscriptionFilters resourceObj).*1 ≡ₚ
         filterLogicalId this <$>
           Underscore.keys (Service.functions (Serverless.service serverless))).
Proof.
  intros Hconf Hvalid Hres Hnd Hinj.
  destruct (createResourcesObj_Return this _ _ Hconf Hvalid Hres) as [out Hout].
  assert (injective_on (getNormalizedFunctionName (naming (provider this)))
            (targets (Serverless.service serverless) (destinationFn c))) as Hinj'.
  { intros a b Ha%targets_keys Hb%targets_keys. apply Hinj.
    - destruct (destinationFn c); [done..|by right].
    - destruct (destinationFn c); [done..|by right]. }
  destruct (createResourcesObj_filters _ _ _ Hconf Hvalid _ Hnd Hinj' Hout)
    as [Hperm Hlookup].
  exists out. split; [done|]. split.
  - intros d Hd Hne.
    assert (truthy (str d) = true) as Htruthy.
    { simpl. apply negb_true_iff, String.eqb_neq, Hne. }
    rewrite Hd in *. split_and!.
    + intros f Hf Hfd. apply Hlookup, elem_of_targets.
      split; [done|]. intros _ [= ->]. done.
    + rewrite (createResourcesObj_loop _ _ _ Hconf Hvalid) in Hout.
      rewrite (subscribe_frame _ _ _ _ _ _ _ _ Hout).
      * apply lookup_singleton_ne. intros Heq.
        by apply (filterLogicalId_not_permissionKey this d).
      * rewrite Hd. intros f Hf Heq.
        apply elem_of_targets in Hf as [Hf Hfd].
        apply (filterLogicalId_inj _ _ _ _ Hinj) in Heq;
          [|by right|by left].
        subst f. by apply Hfd.
    + by rewrite Hperm, (targets_truthy _ _ Htruthy).
  - intros Hfalsy. rewrite (targets_falsy _ _ Hfalsy) in Hperm, Hlookup.
    split; [|done]. intros f Hf. by apply Hlookup.
Qed.

Lemma subscription_filter_per_function_witness :
  forwarding Scenario.B Scenario.internal /\
  valid Scenario.internal /\
  resolves (Serverless.service Scenario.B) /\
  NoDup ["fnA"; "fnDest"] /\
  injective_on (getNormalizedFunctionName Scenario.stub) ["fnDest"; "fnA"; "fnDest"] /\
  exists resourceObj,
    createResourcesObj (Scenario.plugin undefined) Scenario.B = Return resourceObj /\
    (forall d, str "fnDest" = str d -> d <> "" ->
       (forall f, f ∈ ["fnA"; "fnDest"] -> f <> d ->
          subscribed (Scenario.plugin undefined) Scenario.B Scenario.internal
                     resourceObj f) /\
       resourceObj !! filterLogicalId (Scenario.plugin undefined) d = None /\
       (subscriptionFilters resourceObj).*1 ≡ₚ
         filterLogicalId (Scenario.plugin undefined) <$>
           List.filter (fun f => negb (String.eqb f d)) ["fnA"; "fnDest"]) /\
    (truthy (str "fnDest") = false ->
       (forall f, f ∈ ["fnA"; "fnDest"] ->
          subscribed (Scenario.plugin undefined) Scenario.B Scenario.internal
                     resourceObj f) /\
       (subscriptionFilters resourceObj).*1 ≡ₚ
         filterLogicalId (Scenario.plugin undefined) <$> ["fnA"; "fnDest"]).
Proof.
  assert (NoDup ["fnA"; "fnDest"]) as Hnd
    by (apply (bool_decide_unpack _); vm_compute; exact I).
  assert (injective_on (getNormalizedFunctionName Scenario.stub)
            ["fnDest"; "fnA"; "fnDest"]) as Hinj by (intros a b _ _ H; exact H).
  split_and!; [reflexivity..|exact Hnd|exact Hinj|].
  apply (subscription_filter_per_function
           (Scenario.plugin undefined) Scenario.B Scenario.internal);
    [reflexivity..|exact Hnd|exact Hinj].
Defined.

(** C1 fails as stated: with the empty string as [destinationFn], which the
    check of lines 59-61 takes for a destination, a function of that name
    is subscribed all the same. *)
Lemma empty_destination_is_subscribed :
  destinationFn Scenario.empty_fn = str "" /\
  eq_null (destinationFn Scenario.empty_fn) = false /\
  "" ∈ Underscore.keys
         (Service.functions (Serverless.service Scenario.empty_fn_host)) /\
  exists resourceObj resource,
    createResourcesObj (Scenario.plugin undefined) Scenario.empty_fn_host =
      Return resourceObj /\
    resourceObj !! filterLogicalId (Scenario.plugin undefined) "" = Some resource /\
    Type_ resource = "AWS::Logs::SubscriptionFilter" /\
    Properties resource !! "LogGroupName" = Some (str "/aws/lambda/svc-dev-").
Proof.
  split_and!; [reflexivity..|by left|].
  eexists _, _. split_and!; [vm_compute; reflexivity|vm_compute; reflexivity|..];
    reflexivity.
Qed.

(** ** The permission *)

Lemma createResourcesObj_permission_Return this serverless c :
  forwarding serverless c ->
  valid c ->
  resolves (Serverless.service serverless) ->
  exists resourceObj,
    createResourcesObj this serverless = Return resourceObj /\
    resourceObj !! permissionKey =
      Some (permission this (Serverless.service serverless) c).
Proof.
  intros Hconf Hvalid Hres.
  destruct (createResourcesObj_Return this _ _ Hconf Hvalid Hres) as [out Hout].
  exists out. split; [done|].
  apply (createResourcesObj_permission _ _ _ Hconf _ Hvalid Hout).
Qed.

(** C5, as the code has it. The permission depends on the lambda of the
    destination function, as named by [getLambdaLogicalId], if and only if
    [destinationFn] is truthy, that is a string other than the empty one;
    when [destinationFn] is [undefined], [null] or the empty string, the
    permission has no [DependsOn]. *)
Theorem permission_dependency this serverless c :
  forwarding serverless c ->
  valid c ->
  resolves (Serverless.service serverless) ->
  exists resourceObj resource,
    createResourcesObj this serverless = Return resourceObj /\
    resourceObj !! "LogForwardingLambdaPermission" = Some resource /\
    Type_ resource = "AWS::Lambda::Permission" /\
    (forall d, destinationFn c = str d -> d <> "" ->
       DependsOn resource = Some [getLambdaLogicalId (naming (provider this)) d]) /\
    (truthy (destinationFn c) = false -> DependsOn resource = None) /\
    (is_Some (DependsOn resource) <-> truthy (destinationFn c) = true).
Proof.
  intros Hconf Hvalid Hres.
  destruct (createResourcesObj_permission_Return this _ _ Hconf Hvalid Hres)
    as (out & Hout & Hperm).
  exists out, (permission this (Serverless.service serverless) c).
  split_and!; [done..| | |]; simpl.
  - intros d -> Hd. simpl.
    by rewrite (proj2 (String.eqb_neq d "") Hd).
  - by intros ->.
  - destruct (truthy (destinationFn c)); split; try done; by intros [? ?].
Qed.

Lemma permission_dependency_witness :
  forwarding Scenario.B Scenario.internal /\
  valid Scenario.internal /\
  resolves (Serverless.service Scenario.B) /\
  exists resourceObj resource,
    createResourcesObj (Scenario.plugin undefined) Scenario.B = Return resourceObj /\
    resourceObj !! "LogForwardingLambdaPermission" = Some resource /\
    Type_ resource = "AWS::Lambda::Permission" /\
    (forall d, str "fnDest" = str d -> d <> "" ->
       DependsOn resource = Some [d +:+ "LambdaFunction"]) /\
    (truthy (str "fnDest") = false -> DependsOn resource = None) /\
    (is_Some (DependsOn resource) <-> truthy (str "fnDest") = true).
Proof.
  split_and!; [reflexivity..|].
  apply (permission_dependency
           (Scenario.plugin undefined) Scenario.B Scenario.internal);
    reflexivity.
Defined.

(** C5 fails as stated: the empty string as [destinationFn] is a destination
    for the check of lines 59-61, and the permission has no [DependsOn]. *)
Lemma empty_destination_no_dependency :
  forwarding Scenario.empty_fn_host Scenario.empty_fn /\
  eq_null (destinationARN Scenario.empty_fn) = true /\
  eq_null (destinationFn Scenario.empty_fn) = false /\
  exists resourceObj resource,
    createResourcesObj (Scenario.plugin undefined) Scenario.empty_fn_host =
      Return resourceObj /\
    resourceObj !! "LogForwardingLambdaPermission" = Some resource /\
    Properties resource !! "FunctionName" = Some (str "") /\
    DependsOn resource = None.
Proof.
  split_and!; [reflexivity..|].
  eexists _, _. split_and!; [vm_compute; reflexivity|vm_compute; reflexivity|..];
    reflexivity.
Qed.

(** C6, as the code has it. The permission has exactly three properties:
    [FunctionName] is [destinationARN] when that is truthy, that is a string
    other than the empty one, and [destinationFn] otherwise; [Action] is
    [lambda:InvokeFunction]; [Principal] is [logs.], the region of the
    provider and [.amazonaws.com]. *)
Theorem permission_properties this serverless c :
  forwarding serverless c ->
  valid c ->
  resolves (Serverless.service serverless) ->
  exists resourceObj resource,
    createResourcesObj this serverless = Return resourceObj /\
    resourceObj !! "LogForwardingLambdaPermission" = Some resource /\
    Type_ resource = "AWS::Lambda::Permission" /\
    Properties resource =
      {[ "FunctionName" :=
           if truthy (destinationARN c) then destinationARN c else destinationFn c;
         "Action" := str "lambda:InvokeFunction";
         "Principal" :=
           str ("logs." +:+
                ServiceProvider.region (Service.provider (Serverless.service serverless)) +:+
                ".amazonaws.com") ]}.
Proof.
  intros Hconf Hvalid Hres.
  destruct (createResourcesObj_permission_Return this _ _ Hconf Hvalid Hres)
    as (out & Hout & Hperm).
  by exists out, (permission this (Serverless.service serverless) c).
Qed.

Lemma permission_properties_witness :
  forwarding Scenario.A Scenario.external /\
  valid Scenario.external /\
  resolves (Serverless.service Scenario.A) /\
  exists resourceObj resource,
    createResourcesObj (Scenario.plugin undefined) Scenario.A = Return resourceObj /\
    resourceObj !! "LogForwardingLambdaPermission" = Some resource /\
    Type_ resource = "AWS::Lambda::Permission" /\
    Properties resource =
      {[ "FunctionName" := str "arn:aws:lambda:us-east-1:123:function:dest";
         "Action" := str "lambda:InvokeFunction";
         "Principal" := str "logs.us-east-1.amazonaws.com" ]}.
Proof.
  split_and!; [reflexivity..|].
  apply (permission_properties
           (Scenario.plugin undefined) Scenario.A Scenario.external);
    reflexivity.
Defined.

(** C6 fails as stated: the empty string as [destinationARN] is present for
    the check of lines 59-61, and [FunctionName] is [destinationFn]. *)
Lemma empty_arn_function_name :
  forwarding Scenario.empty_arn_host Scenario.empty_arn /\
  valid Scenario.empty_arn /\
  destinationARN Scenario.empty_arn = str "" /\
  eq_null (destinationARN Scenario.empty_arn) = false /\
  exists resourceObj resource,
    createResourcesObj (Scenario.plugin undefined) Scenario.empty_arn_host =
      Return resourceObj /\
    resourceObj !! "LogForwardingLambdaPermission" = Some resource /\
    Properties resource !! "FunctionName" = Some (str "fnDest") /\
    Properties resource !! "FunctionName" <> Some (destinationARN Scenario.empty_arn).
Proof.
  split_and!; [reflexivity..|].
  eexists _, _. split_and!; [vm_compute; reflexivity|vm_compute; reflexivity|..];
    [reflexivity|discriminate].
Qed.

(** ** [updateResources] *)

Lemma indexOf_from_ge array x i : (0 <= i)%Z ->
  indexOf_from array x i = (-1)%Z \/ (i <= indexOf_from array x i)%Z.
Proof.
  revert i. induction array as [|y rest IH]; intros i Hi; simpl; [by left|].
  destruct (String.eqb y x); [right; lia|].
  destruct (IH (i + 1)%Z) as [H|H]; [lia|by left|right; lia].
Qed.

Lemma indexOf_from_absent array x i : (0 <= i)%Z ->
  indexOf_from array x i = (-1)%Z <-> x ∉ array.
Proof.
  revert i. induction array as [|y rest IH]; intros i Hi; simpl.
  - split; [intros _; apply not_elem_of_nil|done].
  - rewrite not_elem_of_cons. destruct (String.eqb_spec y x) as [->|Hne].
    + split; [lia|by intros [? _]].
    + rewrite IH by lia. split; [by split|by intros [_ ?]].
Qed.

Lemma ignored_excluded c stage array :
  stages c = Some array -> stage ∉ array -> ignored c stage = true.
Proof.
  unfold ignored, indexOf. intros -> H.
  apply Z.eqb_eq. by apply indexOf_from_absent.
Qed.

Lemma subscribe_service this serverless serverless' arn filterPattern
    functions resourceObj :
  Serverless.service serverless = Serverless.service serverless' ->
  subscribe this serverless arn filterPattern functions resourceObj =
  subscribe this serverless' arn filterPattern functions resourceObj.
Proof.
  intros H. revert resourceObj.
  induction functions as [|f rest IH]; intros resourceObj; [done|].
  simpl. unfold makeSubscriptionFilter. rewrite H.
  destruct (Service.getFunction _ f); simpl; [apply IH|done].
Qed.

(** [createResourcesObj] reads the service only, not the log. *)
Lemma createResourcesObj_service this serverless serverless' :
  Serverless.service serverless = Serverless.service serverless' ->
  createResourcesObj this serverless = createResourcesObj this serverless'.
Proof.
  intros H. unfold createResourcesObj, conf. rewrite H.
  destruct (ServiceFile.custom _) as [custom|]; simpl; [|done].
  destruct (logForwarding custom) as [c|]; simpl; [|done].
  destruct (eq_null (destinationARN c) && eq_null (destinationFn c)); [done|].
  by apply subscribe_service.
Qed.

Section updateResources.
Variables (this : Plugin) (serverless : Serverless.t) (c : LogForwarding).
Hypothesis Hconf : forwarding serverless c.

Abbreviation service := (Serverless.service serverless).
Abbreviation stage := (current_stage this (Serverless.service serverless)).

Lemma updateResources_ignored :
  ignored c stage = true ->
  updateResources this serverless =
  (Return tt,
   logged ("Log Forwarding is ignored for " +:+ stage +:+ " stage") serverless).
Proof.
  intros H. unfold updateResources, mbind, M_bind, reading.
  rewrite Hconf. simpl. by rewrite H.
Qed.

Lemma updateResources_Throw e :
  ignored c stage = false ->
  createResourcesObj this serverless = Throw e ->
  updateResources this serverless =
  (Throw e, logged "Updating Log Forwarding Resources..." serverless).
Proof.
  intros H He. unfold updateResources, mbind, M_bind, reading.
  rewrite Hconf. simpl. rewrite H. simpl.
  rewrite (createResourcesObj_service this _ serverless) by done.
  by rewrite He.
Qed.

Lemma updateResources_Return resourceObj :
  ignored c stage = false ->
  createResourcesObj this serverless = Return resourceObj ->
  updateResources this serverless =
  (Return tt,
   {| Serverless.service :=
        {| Service.service := Service.service service;
           Service.provider := Service.provider service;
           Service.functions := Service.functions service;
           Service.getFunction := Service.getFunction service;
           Service.resources :=
             Some (extend_Resources resourceObj
                     (with_Resources (Service.resources service))) |};
      Serverless.cli :=
        Serverless.cli serverless ++
        ["Updating Log Forwarding Resources..."; "Log Forwarding Resources Updated"] |}).
Proof.
  intros H Hout. unfold updateResources, mbind, M_bind, reading.
  rewrite Hconf. simpl. rewrite H. simpl.
  rewrite (createResourcesObj_service this _ serverless) by done.
  rewrite Hout. simpl. unfold log, logged. simpl.
  by rewrite <- app_assoc.
Qed.
End updateResources.

(** ** The claims about [updateResources] *)

(** C2. When [destinationARN] and [destinationFn] are both [undefined] or
    [null], [createResourcesObj] throws the configuration error; so does
    [updateResources] once past the check of the stage, after its first
    message, and the service, with its resources, is as it was. *)
Theorem missing_destination this serverless c :
  forwarding serverless c ->
  eq_null (destinationARN c) = true ->
  eq_null (destinationFn c) = true ->
  createResourcesObj this serverless = Throw (Error not_configured) /\
  (ignored c (current_stage this (Serverless.service serverless)) = false ->
   updateResources this serverless =
   (Throw (Error not_configured),
    {| Serverless.service := Serverless.service serverless;
       Serverless.cli :=
         Serverless.cli serverless ++ ["Updating Log Forwarding Resources..."] |})) /\
  (forall completion serverless',
     updateResources this serverless = (completion, serverless') ->
     Serverless.service serverless' = Serverless.service serverless /\
     Service.resources (Serverless.service serverless') =
       Service.resources (Serverless.service serverless)).
Proof.
  intros Hconf Harn Hfn.
  assert (createResourcesObj this serverless = Throw (Error not_configured)) as He.
  { apply (createResourcesObj_invalid _ _ _ Hconf).
    unfold valid. by rewrite Harn, Hfn. }
  split_and!; [done| |].
  - intros H. by rewrite (updateResources_Throw _ _ _ Hconf _ H He).
  - intros completion serverless'.
    destruct (ignored c (current_stage this (Serverless.service serverless))) eqn:H.
    + rewrite (updateResources_ignored _ _ _ Hconf H). by intros [= <- <-].
    + rewrite (updateResources_Throw _ _ _ Hconf _ H He). by intros [= <- <-].
Qed.

Lemma missing_destination_witness :
  forwarding Scenario.no_destination Scenario.missing /\
  eq_null (destinationARN Scenario.missing) = true /\
  eq_null (destinationFn Scenario.missing) = true /\
  ignored Scenario.missing
    (current_stage (Scenario.plugin undefined)
       (Serverless.service Scenario.no_destination)) = false /\
  updateResources (Scenario.plugin undefined) Scenario.no_destination =
  (Throw (Error not_configured),
   {| Serverless.service := Serverless.service Scenario.no_destination;
      Serverless.cli := ["Updating Log Forwarding Resources..."] |}).
Proof.
  split_and!; [reflexivity..|].
  apply (missing_destination (Scenario.plugin undefined)
           Scenario.no_destination Scenario.missing); reflexivity.
Defined.

(** C8. When [stages] is configured and the stage of the deployment is not
    in it, [updateResources] returns normally: it logs one message and does
    nothing else, whatever the rest of the configuration is; the service,
    with its resources, is as it was. *)
Theorem excluded_stage_is_ignored this serverless c array :
  forwarding serverless c ->
  stages c = Some array ->
  current_stage this (Serverless.service serverless) ∉ array ->
  updateResources this serverless =
  (Return tt,
   {| Serverless.service := Serverless.service serverless;
      Serverless.cli :=
        Serverless.cli serverless ++
        ["Log Forwarding is ignored for " +:+
         current_stage this (Serverless.service serverless) +:+ " stage"] |}).
Proof.
  intros Hconf Hstages Hstage.
  apply (updateResources_ignored _ _ _ Hconf).
  by eapply ignored_excluded.
Qed.

Lemma excluded_stage_is_ignored_witness :
  forwarding Scenario.D Scenario.prod_only /\
  stages Scenario.prod_only = Some ["prod"] /\
  (current_stage (Scenario.plugin undefined) (Serverless.service Scenario.D)
     ∉ ["prod"]) /\
  updateResources (Scenario.plugin undefined) Scenario.D =
  (Return tt,
   {| Serverless.service := Serverless.service Scenario.D;
      Serverless.cli := ["Log Forwarding is ignored for dev stage"] |}).
Proof.
  assert (current_stage (Scenario.plugin undefined) (Serverless.service Scenario.D)
            ∉ ["prod"]) as Hstage
    by (apply (bool_decide_unpack _); vm_compute; exact I).
  split_and!; [reflexivity..|exact Hstage|].
  apply (excluded_stage_is_ignored (Scenario.plugin undefined)
           Scenario.D Scenario.prod_only ["prod"]); [reflexivity..|exact Hstage].
Defined.

(** C9. When [createResourcesObj] returns, its resources are merged into
    the template of the service. A missing [resources] object, or a missing
    [Resources] namespace in it, is first set to the empty object, so that
    the namespace then holds the produced resources. Otherwise every
    produced key holds the produced resource, whatever it held before, and
    every other key holds what it held before; the other sections of the
    template are as they were. *)
Theorem resources_are_merged this serverless c resourceObj :
  forwarding serverless c ->
  ignored c (current_stage this (Serverless.service serverless)) = false ->
  createResourcesObj this serverless = Return resourceObj ->
  exists serverless' template',
    updateResources this serverless = (Return tt, serverless') /\
    Service.resources (Serverless.service serverless') = Some template' /\
    (Service.resources (Serverless.service serverless) = None ->
     template' = {| Template.Resources := Some resourceObj;
                    Template.sections := ∅ |}) /\
    (forall template,
       Service.resources (Serverless.service serverless) = Some template ->
       Template.Resources template = None ->
       template' = {| Template.Resources := Some resourceObj;
                      Template.sections := Template.sections template |}) /\
    (forall template Resources,
       Service.resources (Serverless.service serverless) = Some template ->
       Template.Resources template = Some Resources ->
       exists Resources',
         template' = {| Template.Resources := Some Resources';
                        Template.sections := Template.sections template |} /\
         (forall key resource,
            resourceObj !! key = Some resource ->
            Resources' !! key = Some resource) /\
         (forall key,
            resourceObj !! key = None -> Resources' !! key = Resources !! key)).
Proof.
  intros Hconf Hstage Hout.
  rewrite (updateResources_Return _ _ _ Hconf _ Hstage Hout).
  eexists _, _. split; [reflexivity|]. split; [reflexivity|]. split_and!.
  - intros ->. unfold extend_Resources, Underscore.extend. simpl.
    by rewrite (right_id_L ∅ (∪)).
  - intros template -> Hnone. unfold extend_Resources, Underscore.extend. simpl.
    rewrite Hnone. simpl. by rewrite (right_id_L ∅ (∪)).
  - intros template Resources -> Hsome.
    unfold extend_Resources, Underscore.extend. simpl. rewrite Hsome. simpl.
    rewrite Hsome. eexists. split; [reflexivity|]. split.
    + intros key resource Hkey. by apply lookup_union_Some_l.
    + intros key Hkey. by apply lookup_union_r.
Qed.

Lemma resources_are_merged_witness :
  forwarding Scenario.with_template Scenario.external /\
  ignored Scenario.external
    (current_stage (Scenario.plugin undefined)
       (Serverless.service Scenario.with_template)) = false /\
  exists resourceObj serverless' Resources',
    createResourcesObj (Scenario.plugin undefined) Scenario.with_template =
      Return resourceObj /\
    updateResources (Scenario.plugin undefined) Scenario.with_template =
      (Return tt, serverless') /\
    Service.resources (Serverless.service serverless') =
      Some {| Template.Resources := Some Resources';
              Template.sections := {[ "Description" := str "svc" ]} |} /\
    Resources' !! "LogForwardingLambdaPermission" =
      resourceObj !! "LogForwardingLambdaPermission" /\
    Resources' !! "Uploads" = Some Scenario.bucket.
Proof.
  split_and!; [reflexivity..|].
  destruct (createResourcesObj_Return (Scenario.plugin undefined)
              Scenario.with_template Scenario.external)
    as [resourceObj Hout]; [reflexivity..|].
  destruct (resources_are_merged (Scenario.plugin undefined)
              Scenario.with_template Scenario.external resourceObj)
    as (serverless' & template' & Hrun & Hres & _ & _ & Hmerge);
    [reflexivity|reflexivity|exact Hout|].
  destruct (Hmerge Scenario.template
              {[ "LogForwardingLambdaPermission" := Scenario.bucket;
                 "Uploads" := Scenario.bucket ]})
    as (Resources' & -> & Hnew & Hold); [reflexivity..|].
  exists resourceObj, serverless', Resources'.
  split_and!; [exact Hout|exact Hrun|exact Hres| |].
  - destruct (createResourcesObj_permission_Return (Scenario.plugin undefined)
                Scenario.with_template Scenario.external)
      as (resourceObj' & Hout' & Hperm); [reflexivity..|].
    rewrite Hout in Hout'. injection Hout' as <-.
    unfold permissionKey in Hperm. rewrite Hperm. by apply Hnew.
  - rewrite Hold; [reflexivity|].
    revert Hout. vm_compute. intros [= <-]. reflexivity.
Defined.

(** C10. Without a [custom] object, or without [logForwarding] in it,
    [updateResources] throws a [TypeError], from reading [logForwarding] or
    [stages] of [undefined]; nothing is logged and the service is as it
    was. It is not the configuration error. *)
Theorem no_forwarding_block this serverless :
  (ServiceFile.custom (Service.service (Serverless.service serverless)) = None ->
   updateResources this serverless = (Throw (TypeError "logForwarding"), serverless)) /\
  (forall custom,
     ServiceFile.custom (Service.service (Serverless.service serverless)) = Some custom ->
     logForwarding custom = None ->
     updateResources this serverless = (Throw (TypeError "stages"), serverless)).
Proof.
  split.
  - intros H. unfold updateResources, mbind, M_bind, reading, conf. simpl.
    by rewrite H.
  - intros custom H Hnone.
    unfold updateResources, mbind, M_bind, reading, conf. simpl.
    rewrite H. simpl. by rewrite Hnone.
Qed.

Lemma no_forwarding_block_witness :
  updateResources (Scenario.plugin undefined) Scenario.no_custom =
    (Throw (TypeError "logForwarding"), Scenario.no_custom) /\
  updateResources (Scenario.plugin undefined) Scenario.no_block =
    (Throw (TypeError "stages"), Scenario.no_block).
Proof.
  split.
  - apply (proj1 (no_forwarding_block (Scenario.plugin undefined) Scenario.no_custom)).
    reflexivity.
  - apply (proj2 (no_forwarding_block (Scenario.plugin undefined) Scenario.no_block)
             {| logForwarding := None |}); reflexivity.
Defined.

(** * Further properties of the plugin *)

(** ** More on the loop *)

Section subscribe_more.
Variables (this : Plugin) (serverless : Serverless.t).
Variables (arn filterPattern : JsVal).

Abbreviation getFunction := (Service.getFunction (Serverless.service serverless)).
Abbreviation loop := (subscribe this serverless arn filterPattern).
Abbreviation declaration := (subscriptionFilter this arn filterPattern).

(** The loop stops at the first function the host does not know. *)
Lemma subscribe_Throw before f after e resourceObj :
  Forall (fun g => exists fo, getFunction g = Return fo) before ->
  getFunction f = Throw e ->
  loop (before ++ f :: after) resourceObj = Throw e.
Proof.
  intros Hbefore Hf. revert resourceObj.
  induction Hbefore as [|g rest [fo Hfo] _ IH]; intros resourceObj.
  - simpl. unfold makeSubscriptionFilter. by rewrite Hf.
  - rewrite <- app_comm_cons, (subscribe_cons _ _ _ _ _ _ _ _ Hfo). apply IH.
Qed.

(** The last function of a key is the one whose declaration stays. *)
Lemma subscribe_last before f after resourceObj out :
  loop (before ++ f :: after) resourceObj = Return out ->
  (forall g, g ∈ after -> filterLogicalId this g <> filterLogicalId this f) ->
  exists fo, getFunction f = Return fo /\
             out !! filterLogicalId this f = Some (declaration f fo).
Proof.
  revert resourceObj.
  induction before as [|g rest IH]; intros resourceObj Hout Hafter.
  - apply subscribe_cons_inv in Hout as (fo & Hfo & Hout).
    exists fo. split; [done|].
    rewrite (subscribe_frame _ _ _ _ _ _ _ _ Hout Hafter).
    apply lookup_insert_eq.
  - rewrite <- app_comm_cons in Hout.
    apply subscribe_cons_inv in Hout as (go & _ & Hout).
    by apply (IH _ Hout).
Qed.

(** Keys are written, never removed. *)
Lemma subscribe_is_Some functions resourceObj out key :
  loop functions resourceObj = Return out ->
  is_Some (out !! key) <->
  is_Some (resourceObj !! key) \/
  exists f, f ∈ functions /\ key = filterLogicalId this f.
Proof.
  revert resourceObj.
  induction functions as [|f rest IH]; intros resourceObj Hout.
  - simplify_eq/=. split; [by left|].
    intros [?|(f & Hf%not_elem_of_nil & _)]; done.
  - apply subscribe_cons_inv in Hout as (fo & Hfo & Hout).
    rewrite (IH _ Hout), lookup_insert_is_Some. split.
    + intros [[<-|[_ ?]]|(g & Hg & ->)].
      * right. exists f. split; [by left|done].
      * by left.
      * right. exists g. split; [by right|done].
    + intros [Hold|(g & [->|Hg]%elem_of_cons & ->)].
      * left. destruct (decide (filterLogicalId this f = key)); [by left|by right].
      * left. by left.
      * right. by exists g.
Qed.
End subscribe_more.

(** [createResourcesObj] reads the service file, the provider, the catalog
    and [getFunction], not the template and not the log. *)
Lemma createResourcesObj_frame this serverless serverless' :
  Service.service (Serverless.service serverless) =
    Service.service (Serverless.service serverless') ->
  Service.provider (Serverless.service serverless) =
    Service.provider (Serverless.service serverless') ->
  Service.functions (Serverless.service serverless) =
    Service.functions (Serverless.service serverless') ->
  Service.getFunction (Serverless.service serverless) =
    Service.getFunction (Serverless.service serverless') ->
  createResourcesObj this serverless = createResourcesObj this serverless'.
Proof.
  intros Hfile Hprovider Hfunctions Hget.
  unfold createResourcesObj, conf, targets. rewrite Hfile, Hprovider, Hfunctions.
  destruct (ServiceFile.custom _) as [custom|]; simpl; [|done].
  destruct (logForwarding custom) as [c|]; simpl; [|done].
  destruct (eq_null (destinationARN c) && eq_null (destinationFn c)); [done|].
  generalize (if truthy (destinationFn c)
              then List.filter (fun name => strict_ne name (destinationFn c))
                     (Underscore.keys (Service.functions (Serverless.service serverless')))
              else Underscore.keys (Service.functions (Serverless.service serverless'))).
  intros functions.
  match goal with |- subscribe _ _ _ _ _ ?acc = _ => generalize acc end.
  induction functions as [|f rest IH]; intros resourceObj; [done|].
  simpl. unfold makeSubscriptionFilter. rewrite Hget.
  destruct (Service.getFunction _ f); simpl; [apply IH|done].
Qed.

Lemma ignored_iff c stage :
  ignored c stage = true <-> exists array, stages c = Some array /\ stage ∉ array.
Proof.
  split.
  - unfold ignored, indexOf. destruct (stages c) as [array|]; [|done].
    intros H%Z.eqb_eq. exists array. split; [done|].
    by apply (indexOf_from_absent array stage 0).
  - intros (array & Hc & H). by eapply ignored_excluded.
Qed.

Lemma with_Resources_Some resources :
  exists Resources,
    Template.Resources (with_Resources resources) = Some Resources.
Proof.
  destruct resources as [[[Resources|] sections]|]; simpl; eauto.
Qed.

(** Merging the same resources again changes nothing. *)
Lemma extend_Resources_again resourceObj resources :
  extend_Resources resourceObj
    (with_Resources (Some (extend_Resources resourceObj (with_Resources resources)))) =
  extend_Resources resourceObj (with_Resources resources).
Proof.
  destruct (with_Resources_Some resources) as [Resources H].
  unfold extend_Resources at 2 3. rewrite H.
  unfold with_Resources at 1. simpl.
  unfold extend_Resources, Underscore.extend. simpl.
  by rewrite (assoc_L (∪)), (idemp_L (∪)).
Qed.

(** ** The stage and the gate *)

(** X1. The stage of the deployment is the [stage] option when that is a
    string other than the empty one, and the stage of the provider
    otherwise. [updateResources] returns with the single message of line 33
    exactly when [stages] is an array that does not hold that stage. *)
Theorem stage_gate this serverless c :
  forwarding serverless c ->
  current_stage this (Serverless.service serverless) =
    match Options.stage (options this) with
    | str (String a s) => String a s
    | _ => ServiceProvider.stage (Service.provider (Serverless.service serverless))
    end /\
  ((exists array,
      stages c = Some array /\
      current_stage this (Serverless.service serverless) ∉ array) <->
   updateResources this serverless =
   (Return tt,
    {| Serverless.service := Serverless.service serverless;
       Serverless.cli :=
         Serverless.cli serverless ++
         ["Log Forwarding is ignored for " +:+
          current_stage this (Serverless.service serverless) +:+ " stage"] |})).
Proof.
  intros Hconf. split.
  - unfold current_stage. by destruct (Options.stage (options this)) as [| |[|a s]].
  - rewrite <- ignored_iff. split.
    + intros H. apply (updateResources_ignored _ _ _ Hconf H).
    + intros Hrun.
      destruct (ignored c (current_stage this (Serverless.service serverless)))
        eqn:H; [done|].
      destruct (createResourcesObj this serverless) as [out|e] eqn:Hout.
      * rewrite (updateResources_Return _ _ _ Hconf _ H Hout) in Hrun.
        apply (f_equal (fun result => Serverless.cli result.2)) in Hrun.
        simpl in Hrun. by apply app_inv_head in Hrun.
      * by rewrite (updateResources_Throw _ _ _ Hconf _ H Hout) in Hrun.
Qed.

Lemma stage_gate_witness :
  forwarding Scenario.D Scenario.prod_only /\
  current_stage (Scenario.plugin (str "")) (Serverless.service Scenario.D) = "dev" /\
  ((exists array,
      stages Scenario.prod_only = Some array /\
      current_stage (Scenario.plugin (str "")) (Serverless.service Scenario.D)
        ∉ array) <->
   updateResources (Scenario.plugin (str "")) Scenario.D =
   (Return tt,
    {| Serverless.service := Serverless.service Scenario.D;
       Serverless.cli := ["Log Forwarding is ignored for dev stage"] |})).
Proof.
  split; [reflexivity|].
  apply (stage_gate (Scenario.plugin (str "")) Scenario.D Scenario.prod_only).
  reflexivity.
Defined.



(** ** Runs of [updateResources] *)

(** X3. A second run of [updateResources] after one that returned normally
    returns normally too and leaves the service, with its resources, as
    the first run left it. *)
Theorem update_twice this serverless c serverless1 :
  forwarding serverless c ->
  updateResources this serverless = (Return tt, serverless1) ->
  exists serverless2,
    updateResources this serverless1 = (Return tt, serverless2) /\
    Serverless.service serverless2 = Serverless.service serverless1.
Proof.
  intros Hconf Hrun.
  destruct (ignored c (current_stage this (Serverless.service serverless))) eqn:H.
  - rewrite (updateResources_ignored _ _ _ Hconf H) in Hrun.
    injection Hrun as <-.
    eexists. split.
    + apply (updateResources_ignored this _ c); [exact Hconf|exact H].
    + reflexivity.
  - destruct (createResourcesObj this serverless) as [out|e] eqn:Hout.
    + rewrite (updateResources_Return _ _ _ Hconf _ H Hout) in Hrun.
      injection Hrun as <-.
      eexists. split.
      * apply (updateResources_Return this _ c); [done..|].
        rewrite <- Hout. by apply createResourcesObj_frame.
      * cbn -[extend_Resources with_Resources].
        by rewrite extend_Resources_again.
    + by rewrite (updateResources_Throw _ _ _ Hconf _ H Hout) in Hrun.
Qed.

Lemma update_twice_witness :
  forwarding Scenario.with_template Scenario.external /\
  exists serverless1 serverless2,
    updateResources (Scenario.plugin undefined) Scenario.with_template =
      (Return tt, serverless1) /\
    updateResources (Scenario.plugin undefined) serverless1 =
      (Return tt, serverless2) /\
    Serverless.service serverless2 = Serverless.service serverless1.
Proof.
  split; [reflexivity|].
  destruct (updateResources (Scenario.plugin undefined) Scenario.with_template)
    as [completion serverless1] eqn:Hrun.
  assert (completion = Return tt) as ->.
  { revert Hrun. vm_compute. by intros [= <- _]. }
  destruct (update_twice (Scenario.plugin undefined) Scenario.with_template
              Scenario.external serverless1) as (serverless2 & Hrun2 & Hsame);
    [reflexivity|exact Hrun|].
  by exists serverless1, serverless2.
Defined.

(** X4. Whatever [updateResources] does, returning or throwing, with or
    without a forwarding block, it leaves the service file, the provider,
    the catalog and [getFunction] of the service as they were, and it only
    appends to the log. *)
Theorem update_frame this serverless completion serverless' :
  updateResources this serverless = (completion, serverless') ->
  Service.service (Serverless.service serverless') =
    Service.service (Serverless.service serverless) /\
  Service.provider (Serverless.service serverless') =
    Service.provider (Serverless.service serverless) /\
  Service.functions (Serverless.service serverless') =
    Service.functions (Serverless.service serverless) /\
  Service.getFunction (Serverless.service serverless') =
    Service.getFunction (Serverless.service serverless) /\
  exists messages,
    Serverless.cli serverless' = (Serverless.cli serverless ++ messages)%list.
Proof.
  destruct (conf serverless) as [[c|]|e] eqn:Hconf.
  - destruct (ignored c (current_stage this (Serverless.service serverless))) eqn:H.
    + rewrite (updateResources_ignored _ _ _ Hconf H). intros [= <- <-].
      split_and!; try done. by eexists.
    + destruct (createResourcesObj this serverless) as [out|e] eqn:Hout.
      * rewrite (updateResources_Return _ _ _ Hconf _ H Hout). intros [= <- <-].
        split_and!; try done. by eexists.
      * rewrite (updateResources_Throw _ _ _ Hconf _ H Hout). intros [= <- <-].
        split_and!; try done. by eexists.
  - unfold updateResources, mbind, M_bind, reading. rewrite Hconf. simpl.
    intros [= <- <-]. split_and!; try done. exists []. by rewrite app_nil_r.
  - unfold updateResources, mbind, M_bind, reading. rewrite Hconf. simpl.
    intros [= <- <-]. split_and!; try done. exists []. by rewrite app_nil_r.
Qed.

Lemma update_frame_witness :
  updateResources (Scenario.plugin undefined) Scenario.no_destination =
    (Throw (Error not_configured),
     logged "Updating Log Forwarding Resources..." Scenario.no_destination) /\
  Service.functions
    (Serverless.service
       (logged "Updating Log Forwarding Resources..." Scenario.no_destination)) =
    Service.functions (Serverless.service Scenario.no_destination).
Proof.
  split; [reflexivity|].
  apply (update_frame (Scenario.plugin undefined) Scenario.no_destination
           (Throw (Error not_configured))
           (logged "Updating Log Forwarding Resources..." Scenario.no_destination)).
  reflexivity.
Defined.

(** X5. When the host does not know a function of the loop, the exception
    of [getFunction] for the first such function is the exception of
    [createResourcesObj] and, past the check of the stage, of
    [updateResources]; then nothing is merged: the service is as it was. *)
Theorem unknown_function_aborts this serverless c before f after e :
  forwarding serverless c ->
  valid c ->
  targets (Serverless.service serverless) (destinationFn c) =
    (before ++ f :: after)%list ->
  Forall (fun g => exists fo,
            Service.getFunction (Serverless.service serverless) g = Return fo)
         before ->
  Service.getFunction (Serverless.service serverless) f = Throw e ->
  createResourcesObj this serverless = Throw e /\
  (ignored c (current_stage this (Serverless.service serverless)) = false ->
   updateResources this serverless =
   (Throw e,
    {| Serverless.service := Serverless.service serverless;
       Serverless.cli :=
         Serverless.cli serverless ++ ["Updating Log Forwarding Resources..."] |})).
Proof.
  intros Hconf Hvalid Htargets Hbefore Hf.
  assert (createResourcesObj this serverless = Throw e) as He.
  { rewrite (createResourcesObj_loop _ _ _ Hconf Hvalid), Htargets.
    by apply subscribe_Throw. }
  split; [done|]. intros H.
  by rewrite (updateResources_Throw _ _ _ Hconf _ H He).
Qed.

Lemma unknown_function_aborts_witness :
  forwarding Scenario.stale Scenario.external /\
  valid Scenario.external /\
  targets (Serverless.service Scenario.stale) (destinationFn Scenario.external) =
    (["fnA"] ++ "fnB" :: ["fnDest"])%list /\
  Forall (fun g => exists fo,
            Service.getFunction (Serverless.service Scenario.stale) g = Return fo)
         ["fnA"] /\
  createResourcesObj (Scenario.plugin undefined) Scenario.stale =
    Throw (Error "Function fnB doesn't exist in this Service") /\
  (ignored Scenario.external
     (current_stage (Scenario.plugin undefined) (Serverless.service Scenario.stale))
     = false ->
   updateResources (Scenario.plugin undefined) Scenario.stale =
   (Throw (Error "Function fnB doesn't exist in this Service"),
    {| Serverless.service := Serverless.service Scenario.stale;
       Serverless.cli := ["Updating Log Forwarding Resources..."] |})).
Proof.
  assert (Forall (fun g => exists fo,
            Service.getFunction (Serverless.service Scenario.stale) g = Return fo)
         ["fnA"]) as Hbefore.
  { constructor; [|constructor]. by eexists. }
  repeat (split; [reflexivity|]). split; [exact Hbefore|].
  apply (unknown_function_aborts (Scenario.plugin undefined) Scenario.stale
           Scenario.external ["fnA"] "fnB" ["fnDest"]);
    [reflexivity..|exact Hbefore|reflexivity].
Defined.

(** X6. Called on a service without a [custom] object, or without
    [logForwarding] in it, [createResourcesObj] throws a [TypeError], from
    reading [logForwarding] or [destinationARN] of [undefined], not its
    configuration error. *)
Theorem createResourcesObj_without_block this serverless :
  (ServiceFile.custom (Service.service (Serverless.service serverless)) = None ->
   createResourcesObj this serverless = Throw (TypeError "logForwarding")) /\
  (forall custom,
     ServiceFile.custom (Service.service (Serverless.service serverless)) = Some custom ->
     logForwarding custom = None ->
     createResourcesObj this serverless = Throw (TypeError "destinationARN")).
Proof.
  split.
  - intros H. unfold createResourcesObj, conf. by rewrite H.
  - intros custom H Hnone. unfold createResourcesObj, conf.
    rewrite H. simpl. by rewrite Hnone.
Qed.

Lemma createResourcesObj_without_block_witness :
  createResourcesObj (Scenario.plugin undefined) Scenario.no_custom =
    Throw (TypeError "logForwarding") /\
  createResourcesObj (Scenario.plugin undefined) Scenario.no_block =
    Throw (TypeError "destinationARN").
Proof.
  split.
  - apply (proj1 (createResourcesObj_without_block
                    (Scenario.plugin undefined) Scenario.no_custom)).
    reflexivity.
  - apply (proj2 (createResourcesObj_without_block
                    (Scenario.plugin undefined) Scenario.no_block)
             {| logForwarding := None |}); reflexivity.
Defined.

(** ** The resources object, whatever the normalization *)

(** X7. When several functions of the loop have the same logical key, the
    declaration of the last of them is the one the resources object holds:
    an earlier function of that key whose log group differs is not
    subscribed. *)
Theorem last_function_of_a_key_wins this serverless c before g after :
  forwarding serverless c ->
  valid c ->
  resolves (Serverless.service serverless) ->
  targets (Serverless.service serverless) (destinationFn c) =
    (before ++ g :: after)%list ->
  (forall h, h ∈ after -> filterLogicalId this h <> filterLogicalId this g) ->
  exists resourceObj,
    createResourcesObj this serverless = Return resourceObj /\
    subscribed this serverless c resourceObj g /\
    forall f,
      filterLogicalId this f = filterLogicalId this g ->
      getLogGroupLogicalId (naming (provider this)) f <>
        getLogGroupLogicalId (naming (provider this)) g ->
      ~ subscribed this serverless c resourceObj f.
Proof.
  intros Hconf Hvalid Hres Htargets Hafter.
  destruct (createResourcesObj_Return this _ _ Hconf Hvalid Hres) as [out Hout].
  exists out. split; [done|].
  rewrite (createResourcesObj_loop _ _ _ Hconf Hvalid), Htargets in Hout.
  destruct (subscribe_last _ _ _ _ _ _ _ _ _ Hout Hafter) as (go & Hgo & Hg).
  split; [by exists go|].
  intros f Hkey Hgroup (fo & _ & Hf).
  rewrite Hkey, Hg in Hf. injection Hf as _ Heq. by apply Hgroup.
Qed.

Lemma last_function_of_a_key_wins_witness :
  forwarding Scenario.A Scenario.external /\
  valid Scenario.external /\
  resolves (Serverless.service Scenario.A) /\
  targets (Serverless.service Scenario.A) (destinationFn Scenario.external) =
    (["fnA"] ++ "fnB" :: [])%list /\
  exists resourceObj,
    createResourcesObj Scenario.flat_plugin Scenario.A = Return resourceObj /\
    subscribed Scenario.flat_plugin Scenario.A Scenario.external resourceObj "fnB" /\
    ~ subscribed Scenario.flat_plugin Scenario.A Scenario.external resourceObj "fnA".
Proof.
  repeat (split; [reflexivity|]).
  destruct (last_function_of_a_key_wins Scenario.flat_plugin Scenario.A
              Scenario.external ["fnA"] "fnB" [])
    as (resourceObj & Hout & HB & HA); [reflexivity..| |].
  - by intros h Hh%not_elem_of_nil.
  - exists resourceObj. split_and!; [exact Hout|exact HB|].
    apply HA; [reflexivity|discriminate].
Defined.

(** X8. The keys of the resources object are the key of the permission and
    the logical keys of the functions of the loop, and no other, whether
    the normalization keeps names apart or not. *)
Theorem resource_keys this serverless c :
  forwarding serverless c ->
  valid c ->
  resolves (Serverless.service serverless) ->
  exists resourceObj,
    createResourcesObj this serverless = Return resourceObj /\
    forall key,
      is_Some (resourceObj !! key) <->
      key = "LogForwardingLambdaPermission" \/
      exists f,
        f ∈ Underscore.keys (Service.functions (Serverless.service serverless)) /\
        (truthy (destinationFn c) = true -> destinationFn c <> str f) /\
        key = "SubscriptionFilter" +:+
              getNormalizedFunctionName (naming (provider this)) f.
Proof.
  intros Hconf Hvalid Hres.
  destruct (createResourcesObj_Return this _ _ Hconf Hvalid Hres) as [out Hout].
  exists out. split; [done|]. intros key.
  rewrite (createResourcesObj_loop _ _ _ Hconf Hvalid) in Hout.
  rewrite (subscribe_is_Some _ _ _ _ _ _ _ _ Hout).
  rewrite lookup_singleton_is_Some. unfold permissionKey.
  split.
  - intros [H|(f & Hf & ->)]; [by left|right].
    apply elem_of_targets in Hf as [? ?]. by exists f.
  - intros [H|(f & Hf & Hne & ->)]; [by left|right].
    exists f. split; [|done]. by apply elem_of_targets.
Qed.

Lemma resource_keys_witness :
  forwarding Scenario.B Scenario.internal /\
  valid Scenario.internal /\
  resolves (Serverless.service Scenario.B) /\
  exists resourceObj,
    createResourcesObj (Scenario.plugin undefined) Scenario.B = Return resourceObj /\
    forall key,
      is_Some (resourceObj !! key) <->
      key = "LogForwardingLambdaPermission" \/
      exists f,
        f ∈ ["fnA"; "fnDest"] /\
        (truthy (str "fnDest") = true -> str "fnDest" <> str f) /\
        key = "SubscriptionFilter" +:+ f.
Proof.
  repeat (split; [reflexivity|]).
  apply (resource_keys (Scenario.plugin undefined) Scenario.B Scenario.internal);
    reflexivity.
Defined.

(** X9. Without a function to subscribe, because the catalog is empty or
    holds the destination function only, the resources object is the
    permission alone; [getFunction] is not asked. *)
Theorem permission_alone this serverless c :
  forwarding serverless c ->
  valid c ->
  Service.functions (Serverless.service serverless) = [] \/
  (exists d functionObject,
     Service.functions (Serverless.service serverless) = [(d, functionObject)] /\
     destinationFn c = str d /\ d <> "") ->
  createResourcesObj this serverless =
  Return {[ "LogForwardingLambdaPermission" :=
              permission this (Serverless.service serverless) c ]}.
Proof.
  intros Hconf Hvalid Hcatalog.
  rewrite (createResourcesObj_loop _ _ _ Hconf Hvalid).
  assert (targets (Serverless.service serverless) (destinationFn c) = []) as ->;
    [|done].
  unfold targets, Underscore.keys.
  destruct Hcatalog as [->|(d & fo & -> & -> & Hd)].
  - by destruct (truthy (destinationFn c)).
  - simpl. rewrite (proj2 (String.eqb_neq d "") Hd). simpl.
    by rewrite String.eqb_refl.
Qed.

Lemma permission_alone_witness :
  forwarding Scenario.C Scenario.external /\
  valid Scenario.external /\
  createResourcesObj (Scenario.plugin undefined) Scenario.C =
  Return {[ "LogForwardingLambdaPermission" :=
              permission (Scenario.plugin undefined)
                (Serverless.service Scenario.C) Scenario.external ]}.
Proof.
  repeat (split; [reflexivity|]).
  apply (permission_alone (Scenario.plugin undefined) Scenario.C Scenario.external);
    [reflexivity..|by left].
Defined.

(** ** With a normalization that keeps names apart *)

Lemma filter_other_length (d : string) (names : list string) :
  NoDup names ->
  length (List.filter (fun f => negb (String.eqb f d)) names) =
  if bool_decide (d ∈ names) then pred (length names) else length names.
Proof.
  induction 1 as [|f rest Hf Hnd IH]; [done|].
  simpl. destruct (String.eqb_spec f d) as [->|Hne]; simpl.
  - rewrite bool_decide_eq_true_2 by (by left). simpl.
    rewrite IH, bool_decide_eq_false_2; done.
  - rewrite IH. destruct (decide (d ∈ rest)) as [Hin|Hnot].
    + rewrite !bool_decide_eq_true_2; [|by right|done].
      destruct rest; [by apply not_elem_of_nil in Hin|done].
    + rewrite !bool_decide_eq_false_2; [done| |done].
      intros [?|?]%elem_of_cons; congruence.
Qed.




(** X11. With a normalization that keeps the names of the catalog apart,
    the resources object has one declaration per function of the catalog
    and one more for the permission; when the destination function is a
    function of the catalog, it has as many declarations as the catalog
    has functions. *)
Theorem number_of_declarations this serverless c :
  forwarding serverless c ->
  valid c ->
  resolves (Serverless.service serverless) ->
  NoDup (Underscore.keys (Service.functions (Serverless.service serverless))) ->
  injective_on (getNormalizedFunctionName (naming (provider this)))
    (Underscore.keys (Service.functions (Serverless.service serverless))) ->
  exists resourceObj,
    createResourcesObj this serverless = Return resourceObj /\
    (truthy (destinationFn c) = false ->
     size resourceObj =
       S (length (Service.functions (Serverless.service serverless)))) /\
    (forall d, destinationFn c = str d -> d <> "" ->
       size resourceObj =
         if bool_decide
              (d ∈ Underscore.keys (Service.functions (Serverless.service serverless)))
         then length (Service.functions (Serverless.service serverless))
         else S (length (Service.functions (Serverless.service serverless)))).
Proof.
  intros Hconf Hvalid Hres Hnd Hinj.
  destruct (createResourcesObj_Return this _ _ Hconf Hvalid Hres) as [out Hout].
  exists out. split; [done|].
  assert (size out =
          S (length (targets (Serverless.service serverless) (destinationFn c))))
    as Hsize.
  { rewrite (createResourcesObj_loop _ _ _ Hconf Hvalid) in Hout.
    apply subscribe_Permutation in Hout as (ds & Hds & Hperm).
    - rewrite (Forall2_length _ _ _ Hds).
      rewrite <- length_map_to_list, Hperm, length_app, map_to_list_singleton.
      simpl. lia.
    - apply NoDup_fmap_2_strong; [|by apply NoDup_targets].
      intros a b Ha%targets_keys Hb%targets_keys.
      by apply (filterLogicalId_inj this _ a b Hinj).
    - intros f _. apply lookup_singleton_ne.
      intros Heq. by apply (filterLogicalId_not_permissionKey this f). }
  assert (length (Underscore.keys (Service.functions (Serverless.service serverless))) =
          length (Service.functions (Serverless.service serverless))) as Hlen
    by (unfold Underscore.keys; apply List.length_map).
  split.
  - intros Hfalsy. by rewrite Hsize, (targets_falsy _ _ Hfalsy), Hlen.
  - intros d Hd Hne. rewrite Hsize, Hd, targets_truthy.
    + rewrite (filter_other_length d _ Hnd), Hlen.
      case_bool_decide as Hin; [|done].
      destruct (Service.functions (Serverless.service serverless));
        [by apply not_elem_of_nil in Hin|done].
    + simpl. apply negb_true_iff, String.eqb_neq, Hne.
Qed.

Lemma number_of_declarations_witness :
  forwarding Scenario.B Scenario.internal /\
  valid Scenario.internal /\
  resolves (Serverless.service Scenario.B) /\
  NoDup ["fnA"; "fnDest"] /\
  injective_on (getNormalizedFunctionName Scenario.stub) ["fnA"; "fnDest"] /\
  exists resourceObj,
    createResourcesObj (Scenario.plugin undefined) Scenario.B = Return resourceObj /\
    size resourceObj = 2.
Proof.
  assert (NoDup ["fnA"; "fnDest"]) as Hnd
    by (apply (bool_decide_unpack _); vm_compute; exact I).
  assert (injective_on (getNormalizedFunctionName Scenario.stub) ["fnA"; "fnDest"])
    as Hinj by (intros a b _ _ H; exact H).
  repeat (split; [reflexivity|]).
  split; [exact Hnd|]. split; [exact Hinj|].
  destruct (number_of_declarations (Scenario.plugin undefined) Scenario.B
              Scenario.internal) as (resourceObj & Hout & _ & Hsize);
    [reflexivity..|exact Hnd|exact Hinj|].
  exists resourceObj. split; [exact Hout|].
  by rewrite (Hsize "fnDest").
Defined.
